(** * BlackboxPlayer/Utilities/BridgingHeader.h

    The repository's only source unit is an Objective-C bridging header: a
    guarded sequence of [#import] directives.  The development embeds

    - the text of the header, line by line ([BridgingHeader_h_source]);
    - a line classifier and directive parser ([parse_line]);
    - a preprocessor for the directive fragment the header is written in
      ([pp_step], [pp_run], [include_file]), parameterised by the
      installation that resolves header names ([resolver]).

    The statements about the header are proved on the parsed text and on
    the preprocessor run over it. *)

From Stdlib Require Import String Ascii List Bool.
From stdpp Require Import base option list strings gmap.
Import ListNotations.
Local Open Scope string_scope.
Local Open Scope list_scope.

(** ** The text of the header *)

Module Source.

(** The nineteen lines of BridgingHeader.h, in file order.  The last line is
    not newline-terminated in the file. *)
Definition BridgingHeader_h_source : list string :=
  [ "//"
  ; "//  BridgingHeader.h"
  ; "//  BlackboxPlayer"
  ; "//"
  ; "//  Objective-C Bridging Header for FFmpeg and other C libraries"
  ; "//"
  ; ""
  ; "#ifndef BridgingHeader_h"
  ; "#define BridgingHeader_h"
  ; ""
  ; "// FFmpeg headers"
  ; "#import <libavcodec/avcodec.h>"
  ; "#import <libavformat/avformat.h>"
  ; "#import <libavutil/avutil.h>"
  ; "#import <libavutil/imgutils.h>"
  ; "#import <libswscale/swscale.h>"
  ; "#import <libswresample/swresample.h>"
  ; ""
  ; "#endif /* BridgingHeader_h */" ].

(** The include guard the file tests and defines (lines 8 and 9). *)
Definition guard : string := "BridgingHeader_h".

(** The header names of lines 12 to 17. *)
Definition ffmpeg_headers : list string :=
  [ "libavcodec/avcodec.h"
  ; "libavformat/avformat.h"
  ; "libavutil/avutil.h"
  ; "libavutil/imgutils.h"
  ; "libswscale/swscale.h"
  ; "libswresample/swresample.h" ].

End Source.

(** ** Lines and directives *)

Module Syntax.

(** How a header name is delimited: [<h>] or a quoted name. *)
Inductive delim := Angle | Quote.

Inductive directive :=
| DIfndef (m : string)
| DIfdef (m : string)
| DElse
| DEndif
| DDefine (m body : string)
| DUndef (m : string)
| DImport (d : delim) (h : string)
| DInclude (d : delim) (h : string)
| DError (msg : string)
| DOther (name rest : string).

(** A physical line is blank, a [//] comment, a directive, or anything else:
    C or Objective-C text (declarations, definitions, statements). *)
Inductive line :=
| LBlank
| LComment (text : string)
| LDirective (d : directive)
| LCode (text : string).

Definition is_space (c : ascii) : bool :=
  (c =? " ")%char || (nat_of_ascii c =? 9)%nat || (nat_of_ascii c =? 13)%nat.

Definition is_ident_char (c : ascii) : bool :=
  let n := nat_of_ascii c in
  ((48 <=? n) && (n <=? 57))%nat
  || ((65 <=? n) && (n <=? 90))%nat
  || ((97 <=? n) && (n <=? 122))%nat
  || (n =? 95)%nat.

Fixpoint ltrim (s : string) : string :=
  match s with
  | String c r => if is_space c then ltrim r else s
  | EmptyString => EmptyString
  end.

(** Longest prefix satisfying [p], and the rest. *)
Fixpoint span (p : ascii -> bool) (s : string) : string * string :=
  match s with
  | String c r =>
      if p c then let '(a, b) := span p r in (String c a, b)
      else (EmptyString, s)
  | EmptyString => (EmptyString, EmptyString)
  end.

Definition dquote : ascii := ascii_of_nat 34.

(** [<name>] or a quoted name; [None] when the operand is neither. *)
Definition parse_header (s : string) : option (delim * string) :=
  match s with
  | String c r =>
      if (c =? "<")%char then
        let '(h, rest) := span (fun x => negb (x =? ">")%char) r in
        match rest with
        | String _ _ => Some (Angle, h)
        | EmptyString => None
        end
      else if (c =? dquote)%char then
        let '(h, rest) := span (fun x => negb (x =? dquote)%char) r in
        match rest with
        | String _ _ => Some (Quote, h)
        | EmptyString => None
        end
      else None
  | EmptyString => None
  end.

(** The text after [#]: directive name, then its operand. *)
Definition parse_directive (s : string) : directive :=
  let '(name, rest) := span is_ident_char (ltrim s) in
  let arg := ltrim rest in
  if (name =? "ifndef")%string then DIfndef (fst (span is_ident_char arg))
  else if (name =? "ifdef")%string then DIfdef (fst (span is_ident_char arg))
  else if (name =? "else")%string then DElse
  else if (name =? "endif")%string then DEndif
  else if (name =? "define")%string then
    let '(m, body) := span is_ident_char arg in DDefine m (ltrim body)
  else if (name =? "undef")%string then DUndef (fst (span is_ident_char arg))
  else if (name =? "import")%string then
    match parse_header arg with
    | Some (d, h) => DImport d h
    | None => DOther name arg
    end
  else if (name =? "include")%string then
    match parse_header arg with
    | Some (d, h) => DInclude d h
    | None => DOther name arg
    end
  else if (name =? "error")%string then DError arg
  else DOther name arg.

(** Classification of one physical line.  A line that opens with a block
    comment is counted as code: the classifier never under-reports text. *)
Definition parse_line (s : string) : line :=
  match ltrim s with
  | EmptyString => LBlank
  | String c r =>
      if (c =? "#")%char then LDirective (parse_directive r)
      else if (c =? "/")%char then
        match r with
        | String c' r' => if (c' =? "/")%char then LComment r' else LCode (String c r)
        | EmptyString => LCode (String c r)
        end
      else LCode (String c r)
  end.

Definition parse (src : list string) : list line := map parse_line src.

(** The directives of a file, in order. *)
Definition directives (ls : list line) : list directive :=
  omap (fun l => match l with LDirective d => Some d | _ => None end) ls.

(** Text of the file's own that is neither comment nor directive. *)
Definition own_code (ls : list line) : list string :=
  omap (fun l => match l with LCode t => Some t | _ => None end) ls.

(** Every header named by an [#import] or [#include], in order. *)
Definition header_imports (ls : list line) : list (delim * string) :=
  omap (fun d => match d with
                 | DImport k h | DInclude k h => Some (k, h)
                 | _ => None
                 end) (directives ls).

(** Macros the file defines and undefines, in order. *)
Definition defined_macros (ls : list line) : list string :=
  omap (fun d => match d with DDefine m _ => Some m | _ => None end) (directives ls).

Definition undefined_macros (ls : list line) : list string :=
  omap (fun d => match d with DUndef m => Some m | _ => None end) (directives ls).

End Syntax.

Import Source Syntax.

(** The header, parsed. *)
Definition BridgingHeader_h : list line := parse BridgingHeader_h_source.

(** ** The preprocessor *)

Module Preprocessor.

(** What a translation unit sees after preprocessing: text of the file
    itself, or a declaration contributed by a header that was pulled in. *)
Inductive item :=
| Own (text : string)
| From (h : string) (decl : string).

(** Preprocessor state: the macro table, the set of files already brought in
    by [#import], and the items emitted so far. *)
Record pp_state := PPState {
  macros : gmap string string;
  imported : gset string;
  output : list item
}.

Inductive pp_error :=
| MissingHeader (h : string)
| UserError (msg : string)
| Unbalanced
| Unsupported (name : string).

Inductive result (A : Type) :=
| Ok (a : A)
| Err (e : pp_error).
Arguments Ok {A} a.
Arguments Err {A} e.

Definition bind {A B} (r : result A) (f : A -> result B) : result B :=
  match r with
  | Ok a => f a
  | Err e => Err e
  end.

Definition rmap {A B} (f : A -> B) (r : result A) : result B :=
  bind r (fun a => Ok (f a)).

Notation "'letr' x ':=' r 'in' k" := (bind r (fun x => k))
  (at level 10, x name, r at level 100, k at level 200).

(** What processing one header contributes: its declarations, the macro
    table it leaves behind, and the files it marked as imported itself. *)
Record header_result := HeaderResult {
  decls : list string;
  macros_after : gmap string string;
  also_imported : gset string
}.

(** The installation: which header names resolve, and to what, given the
    macro table and import marks at the point of inclusion.  [None] is a
    header that is absent or does not preprocess. *)
Definition resolver : Type :=
  delim -> string -> gmap string string -> gset string -> option header_result.

Definition is_defined (m : string) (s : pp_state) : bool :=
  match macros s !! m with
  | Some _ => true
  | None => false
  end.

Definition set_macros (f : gmap string string -> gmap string string)
    (s : pp_state) : pp_state :=
  {| macros := f (macros s); imported := imported s; output := output s |}.

Definition emit (i : item) (s : pp_state) : pp_state :=
  {| macros := macros s; imported := imported s; output := output s ++ [i] |}.

(** The items a translation unit wrote itself, in order. *)
Definition own_items (out : list item) : list string :=
  omap (fun i => match i with Own t => Some t | From _ _ => None end) out.

(** The stack of open conditionals; a line is live when every enclosing
    conditional holds. *)
Definition active (stk : list bool) : bool := forallb id stk.

Section WithInstallation.

Variable resolve : resolver.

(** [#import] ([once = true]) skips a file that is already marked, and
    marks the file it brings in before entering it; [#include]
    ([once = false]) does neither.  Marks are never removed.  They are kept
    by header name: within one translation unit a name in a given form
    resolves to one file. *)
Definition do_include (once : bool) (k : delim) (h : string)
    (s : pp_state) : result pp_state :=
  if once && bool_decide (h ∈ imported s) then Ok s
  else
    let im := (if once then {[ h ]} else ∅) ∪ imported s in
    match resolve k h (macros s) im with
    | None => Err (MissingHeader h)
    | Some r =>
        Ok {| macros := macros_after r;
              imported := im ∪ also_imported r;
              output := output s ++ map (From h) (decls r) |}
    end.

Definition pp_directive (d : directive) (stk : list bool) (s : pp_state)
    : result (list bool * pp_state) :=
  match d with
  | DIfndef m => Ok (negb (is_defined m s) :: stk, s)
  | DIfdef m => Ok (is_defined m s :: stk, s)
  | DElse =>
      match stk with
      | b :: stk' => Ok (negb b :: stk', s)
      | [] => Err Unbalanced
      end
  | DEndif =>
      match stk with
      | _ :: stk' => Ok (stk', s)
      | [] => Err Unbalanced
      end
  | DDefine m body =>
      Ok (stk, if active stk then set_macros (insert m body) s else s)
  | DUndef m =>
      Ok (stk, if active stk then set_macros (delete m) s else s)
  | DImport k h =>
      if active stk then letr s' := do_include true k h s in Ok (stk, s')
      else Ok (stk, s)
  | DInclude k h =>
      if active stk then letr s' := do_include false k h s in Ok (stk, s')
      else Ok (stk, s)
  | DError msg =>
      if active stk then Err (UserError msg) else Ok (stk, s)
  | DOther name _ =>
      if active stk then Err (Unsupported name) else Ok (stk, s)
  end.

Definition pp_step (l : line) (c : list bool * pp_state)
    : result (list bool * pp_state) :=
  let '(stk, s) := c in
  match l with
  | LBlank | LComment _ => Ok c
  | LDirective d => pp_directive d stk s
  | LCode t => Ok (stk, if active stk then emit (Own t) s else s)
  end.

Fixpoint pp_run (ls : list line) (c : list bool * pp_state)
    : result (list bool * pp_state) :=
  match ls with
  | [] => Ok c
  | l :: ls' => letr c' := pp_step l c in pp_run ls' c'
  end.

(** Preprocess a whole file from state [s]; every conditional it opens must
    be closed by its end. *)
Definition include_file (ls : list line) (s : pp_state) : result pp_state :=
  letr c := pp_run ls ([], s) in
  match c with
  | ([], s') => Ok s'
  | (_ :: _, _) => Err Unbalanced
  end.

(** The same file included [n] times in a row in one translation unit. *)
Fixpoint include_times (n : nat) (ls : list line) (s : pp_state)
    : result pp_state :=
  match n with
  | O => Ok s
  | S n' => letr s' := include_file ls s in include_times n' ls s'
  end.

(** A run of [#import <h>] lines, one per name. *)
Fixpoint import_all (hs : list string) (s : pp_state) : result pp_state :=
  match hs with
  | [] => Ok s
  | h :: hs' => letr s' := do_include true Angle h s in import_all hs' s'
  end.

(** An emitted item that is a declaration of one of the headers [hs], as the
    installation resolves it. *)
Definition provided (hs : list string) (i : item) : Prop :=
  exists h d ms im r,
    (h ∈ hs) /\ i = From h d /\ resolve Angle h ms im = Some r /\ (d ∈ decls r).

End WithInstallation.

(** The start of a translation unit: nothing defined, imported or emitted. *)
Definition initial : pp_state :=
  {| macros := ∅; imported := ∅; output := [] |}.

(** A state in which a further inclusion has nothing left to do: the guard
    is defined, or all six headers carry their import mark. *)
Definition settled (s : pp_state) : Prop :=
  is_defined guard s = true \/ forall h, h ∈ ffmpeg_headers -> h ∈ imported s.

End Preprocessor.

Import Preprocessor.

(** ** A small installation to run the header against *)

Module Toy.

(** Each of the six FFmpeg headers is present; it declares one symbol named
    after itself and defines one macro.  Every other name is absent. *)
Definition installed : resolver := fun _ h ms _ =>
  if bool_decide (h ∈ ffmpeg_headers) then
    Some {| decls := [("decl of " ++ h)%string];
            macros_after := <[ "HAVE" := h ]> ms;
            also_imported := ∅ |}
  else None.

(** An installation from which [libswscale] is missing. *)
Definition no_swscale : resolver := fun k h ms im =>
  if bool_decide (h = "libswscale/swscale.h") then None
  else installed k h ms im.

(** An installation whose headers declare nothing and define nothing. *)
Definition hollow : resolver := fun _ h ms _ =>
  if bool_decide (h ∈ ffmpeg_headers) then
    Some {| decls := []; macros_after := ms; also_imported := ∅ |}
  else None.

(** [installed], extended with one more, unrelated header. *)
Definition with_extra : resolver := fun k h ms im =>
  if bool_decide (h = "stdio.h") then
    Some {| decls := ["printf"]; macros_after := ms; also_imported := ∅ |}
  else installed k h ms im.

End Toy.

(** The state the toy installation leaves after one inclusion at the start
    of a translation unit. *)
Definition toy_final : pp_state :=
  match include_file Toy.installed BridgingHeader_h initial with
  | Ok s => s
  | Err _ => initial
  end.

(** A translation unit that already carries FFmpeg's end-of-file code as a
    macro when it reaches the inclusion. *)
Definition with_averror_eof : pp_state :=
  set_macros (insert "AVERROR_EOF" "(-541478725)") initial.

Definition toy_after (s : pp_state) : pp_state :=
  match include_file Toy.installed BridgingHeader_h s with
  | Ok s' => s'
  | Err _ => s
  end.

(** An installation with no header at all. *)
Definition nothing_installed : resolver := fun _ _ _ _ => None.

(** A translation unit compiled with the guard predefined, as with
    [-DBridgingHeader_h=1]. *)
Definition guard_predefined : pp_state :=
  set_macros (insert guard "1") initial.

(** A translation unit that imported [libavutil/avutil.h] on its own before
    it reaches the inclusion. *)
Definition avutil_first : pp_state :=
  {| macros := ∅; imported := {[ "libavutil/avutil.h" ]}; output := [] |}.



(** ** The parsed header *)

Lemma BridgingHeader_h_parsed :
  BridgingHeader_h =
  [ LComment ""
  ; LComment "  BridgingHeader.h"
  ; LComment "  BlackboxPlayer"
  ; LComment ""
  ; LComment "  Objective-C Bridging Header for FFmpeg and other C libraries"
  ; LComment ""
  ; LBlank
  ; LDirective (DIfndef guard)
  ; LDirective (DDefine guard "")
  ; LBlank
  ; LComment " FFmpeg headers"
  ; LDirective (DImport Angle "libavcodec/avcodec.h")
  ; LDirective (DImport Angle "libavformat/avformat.h")
  ; LDirective (DImport Angle "libavutil/avutil.h")
  ; LDirective (DImport Angle "libavutil/imgutils.h")
  ; LDirective (DImport Angle "libswscale/swscale.h")
  ; LDirective (DImport Angle "libswresample/swresample.h")
  ; LBlank
  ; LDirective DEndif ].
Proof. vm_compute. reflexivity. Qed.

Lemma directives_parsed :
  directives BridgingHeader_h =
  [ DIfndef guard
  ; DDefine guard ""
  ; DImport Angle "libavcodec/avcodec.h"
  ; DImport Angle "libavformat/avformat.h"
  ; DImport Angle "libavutil/avutil.h"
  ; DImport Angle "libavutil/imgutils.h"
  ; DImport Angle "libswscale/swscale.h"
  ; DImport Angle "libswresample/swresample.h"
  ; DEndif ].
Proof. vm_compute. reflexivity. Qed.

(** ** Running the toy installation *)

Example toy_output :
  rmap output (include_file Toy.installed BridgingHeader_h initial) =
  Ok [ From "libavcodec/avcodec.h" "decl of libavcodec/avcodec.h"
     ; From "libavformat/avformat.h" "decl of libavformat/avformat.h"
     ; From "libavutil/avutil.h" "decl of libavutil/avutil.h"
     ; From "libavutil/imgutils.h" "decl of libavutil/imgutils.h"
     ; From "libswscale/swscale.h" "decl of libswscale/swscale.h"
     ; From "libswresample/swresample.h" "decl of libswresample/swresample.h" ].
Proof. vm_compute. reflexivity. Qed.

Example toy_missing :
  include_file Toy.no_swscale BridgingHeader_h initial =
  Err (MissingHeader "libswscale/swscale.h").
Proof. vm_compute. reflexivity. Qed.

Example toy_twice :
  rmap output (include_times Toy.installed 2 BridgingHeader_h initial) =
  rmap output (include_file Toy.installed BridgingHeader_h initial).
Proof. vm_compute. reflexivity. Qed.

(** ** What including the header does *)

Section Inclusion.

Variable resolve : resolver.

Lemma bind_ok {A B} (r : result A) (f : A -> result B) (b : B) :
  bind r f = Ok b -> exists a, r = Ok a /\ f a = Ok b.
Proof. destruct r as [a|e]; simpl; [eauto | discriminate]. Qed.

Lemma bind_err {A B} (r : result A) (f : A -> result B) (e : pp_error) :
  bind r f = Err e -> r = Err e \/ exists a, r = Ok a /\ f a = Err e.
Proof. destruct r as [a|e']; simpl; [eauto | intros [= ->]; auto]. Qed.

(** The header is its guard around six imports: with the guard already
    defined it is skipped whole; otherwise the guard is defined and the six
    headers are imported in order. *)
Lemma include_BridgingHeader_h_eq s :
  include_file resolve BridgingHeader_h s =
  if is_defined guard s then Ok s
  else import_all resolve ffmpeg_headers (set_macros (insert guard "") s).
Proof.
  rewrite BridgingHeader_h_parsed. unfold include_file.
  cbn [pp_run pp_step pp_directive bind].
  destruct (is_defined guard s); cbn [negb].
  - reflexivity.
  - change (active [true]) with true. cbn iota.
    unfold ffmpeg_headers. cbn [import_all].
    repeat match goal with
    | |- context [do_include resolve true Angle ?h ?t] =>
        destruct (do_include resolve true Angle h t);
        cbn [bind pp_step pp_directive active forallb id andb];
        try reflexivity
    end.
Qed.

(** *** One [#import] *)

Lemma provided_weaken h hs i :
  provided resolve hs i -> provided resolve (h :: hs) i.
Proof.
  intros (h' & d & ms & im & r & Hin & -> & Hr & Hd).
  exists h', d, ms, im, r. repeat split; auto. by right.
Qed.

Lemma own_items_app (a b : list item) :
  own_items (a ++ b) = own_items a ++ own_items b.
Proof. apply omap_app. Qed.

Lemma provided_not_own hs items :
  Forall (provided resolve hs) items -> own_items items = [].
Proof.
  induction 1 as [|i items (h & d & _ & _ & _ & _ & -> & _) _ IH]; [done|].
  exact IH.
Qed.

Lemma do_import_cases h s s' :
  do_include resolve true Angle h s = Ok s' ->
  ((h ∈ imported s) /\ s' = s) \/
  ((h ∉ imported s) /\ exists r,
     resolve Angle h (macros s) ({[ h ]} ∪ imported s) = Some r /\
     s' = {| macros := macros_after r;
             imported := {[ h ]} ∪ imported s ∪ also_imported r;
             output := output s ++ map (From h) (decls r) |}).
Proof.
  unfold do_include. cbn [andb]. case_bool_decide as Hin.
  - intros [= <-]. by left.
  - cbn zeta.
    destruct (resolve Angle h (macros s) ({[ h ]} ∪ imported s)) as [r|] eqn:Hr;
      [|discriminate].
    intros [= <-]. right. eauto.
Qed.

Lemma do_import_skip h s :
  h ∈ imported s -> do_include resolve true Angle h s = Ok s.
Proof. intros Hin. unfold do_include. cbn [andb]. by rewrite bool_decide_eq_true_2. Qed.

Lemma do_import_err h s e :
  do_include resolve true Angle h s = Err e ->
  e = MissingHeader h /\
  resolve Angle h (macros s) ({[ h ]} ∪ imported s) = None.
Proof.
  unfold do_include. cbn [andb]. case_bool_decide; [discriminate|]. cbn zeta.
  destruct (resolve Angle h (macros s) ({[ h ]} ∪ imported s)); [discriminate|].
  by intros [= <-].
Qed.

Lemma do_include_imported once k h s s' :
  do_include resolve once k h s = Ok s' -> imported s ⊆ imported s'.
Proof.
  unfold do_include. destruct (once && bool_decide (h ∈ imported s)).
  - by intros [= <-].
  - cbn zeta. destruct (resolve k h (macros s) _) as [r|]; [|discriminate].
    intros [= <-]. cbn. set_solver.
Qed.

(** *** Arbitrary lines: import marks only accumulate *)

Lemma pp_step_imported l stk s stk' s' :
  pp_step resolve l (stk, s) = Ok (stk', s') -> imported s ⊆ imported s'.
Proof.
  destruct l as [| c | d | t]; cbn [pp_step].
  - by intros [= _ <-].
  - by intros [= _ <-].
  - destruct d; cbn [pp_directive];
      repeat match goal with
      | |- context [match ?l with [] => _ | _ :: _ => _ end] => destruct l
      | |- context [if active ?l then _ else _] => destruct (active l)
      end;
      try discriminate; try (by intros [= _ <-]).
    + intros (s1 & H1 & [= _ <-])%bind_ok. by eapply do_include_imported.
    + intros (s1 & H1 & [= _ <-])%bind_ok. by eapply do_include_imported.
  - destruct (active stk); by intros [= _ <-].
Qed.

Lemma pp_run_imported ls stk s stk' s' :
  pp_run resolve ls (stk, s) = Ok (stk', s') -> imported s ⊆ imported s'.
Proof.
  revert stk s. induction ls as [|l ls IH]; intros stk s; cbn [pp_run].
  - by intros [= _ <-].
  - intros ([stk1 s1] & H1 & H2)%bind_ok.
    apply pp_step_imported in H1. apply IH in H2. clear IH. set_solver.
Qed.

(** *** A run of imports *)

Lemma import_all_imported hs s s' :
  import_all resolve hs s = Ok s' ->
  (imported s ⊆ imported s') /\ forall h, h ∈ hs -> h ∈ imported s'.
Proof.
  revert s. induction hs as [|h hs IH]; intros s; cbn [import_all].
  - intros [= <-]. split; [done|]. intros h Hh. by apply elem_of_nil in Hh.
  - intros (s1 & H1 & H2)%bind_ok. apply IH in H2 as [Hsub Hall]. clear IH.
    assert ((imported s ⊆ imported s1) /\ (h ∈ imported s1)) as [Hs Hh].
    { apply do_import_cases in H1 as [[Hin ->]|(Hn & r & _ & ->)]; cbn.
      - done.
      - set_solver. }
    split; [set_solver|].
    intros h' [->|Hin]%elem_of_cons; [set_solver | by apply Hall].
Qed.

Lemma import_all_output hs s s' :
  import_all resolve hs s = Ok s' ->
  exists items, output s' = output s ++ items /\ Forall (provided resolve hs) items.
Proof.
  revert s. induction hs as [|h hs IH]; intros s; cbn [import_all].
  - intros [= <-]. exists []. by rewrite app_nil_r.
  - intros (s1 & H1 & H2)%bind_ok.
    apply IH in H2 as (items2 & Hout2 & Hall2).
    assert (exists items1, output s1 = output s ++ items1
                           /\ Forall (provided resolve (h :: hs)) items1)
      as (items1 & Hout1 & Hall1).
    { apply do_import_cases in H1 as [[Hin ->]|(Hn & r & Hr & ->)]; cbn.
      - exists []. by rewrite app_nil_r.
      - exists (map (From h) (decls r)). split; [done|].
        apply Forall_forall. intros i (d & -> & Hd)%list_elem_of_fmap.
        exists h, d, (macros s), ({[ h ]} ∪ imported s), r.
        repeat split; auto. by left. }
    exists (items1 ++ items2). split.
    + by rewrite Hout2, Hout1, app_assoc.
    + apply Forall_app. split; [done|].
      eapply Forall_impl; [exact Hall2|]. intros i. apply provided_weaken.
Qed.

Lemma import_all_skip hs s :
  (forall h, h ∈ hs -> h ∈ imported s) -> import_all resolve hs s = Ok s.
Proof.
  induction hs as [|h hs IH]; intros Hall; cbn [import_all]; [done|].
  rewrite do_import_skip by (apply Hall; by left). cbn [bind].
  apply IH. intros h' Hh'. apply Hall. by right.
Qed.

Lemma import_all_err hs s e :
  import_all resolve hs s = Err e ->
  exists h ms im,
    (h ∈ hs) /\ e = MissingHeader h /\ resolve Angle h ms im = None.
Proof.
  revert s. induction hs as [|h hs IH]; intros s; cbn [import_all]; [discriminate|].
  intros [H1|(s1 & _ & H2)]%bind_err.
  - apply do_import_err in H1 as [-> Hr].
    exists h, (macros s), ({[ h ]} ∪ imported s). repeat split; auto. by left.
  - apply IH in H2 as (h' & ms & im & Hin & -> & Hr).
    exists h', ms, im. repeat split; auto. by right.
Qed.

(** A macro that no header of [hs] touches is the same after the run. *)
Lemma import_all_macro_frame m hs s s' :
  (forall h ms im r, h ∈ hs -> resolve Angle h ms im = Some r ->
                     macros_after r !! m = ms !! m) ->
  import_all resolve hs s = Ok s' ->
  macros s' !! m = macros s !! m.
Proof.
  revert s. induction hs as [|h hs IH]; intros s Hfr; cbn [import_all].
  - by intros [= <-].
  - intros (s1 & H1 & H2)%bind_ok.
    rewrite (IH s1); [|intros; eapply Hfr; eauto; by right|done].
    apply do_import_cases in H1 as [[_ ->]|(_ & r & Hr & ->)]; [done|]. cbn.
    eapply Hfr; [|exact Hr]. by left.
Qed.

End Inclusion.

(** *** Two installations compared *)

Lemma import_all_ext (r1 r2 : resolver) hs s :
  (forall h ms im, h ∈ hs -> r1 Angle h ms im = r2 Angle h ms im) ->
  import_all r1 hs s = import_all r2 hs s.
Proof.
  revert s. induction hs as [|h hs IH]; intros s Hagree; cbn [import_all]; [done|].
  assert (do_include r1 true Angle h s = do_include r2 true Angle h s) as ->.
  { unfold do_include. rewrite Hagree by (by left). done. }
  destruct (do_include r2 true Angle h s) as [s1|e]; cbn [bind]; [|done].
  apply IH. intros h' ms im Hin. apply Hagree. by right.
Qed.

(** *** The header as a whole *)

Section Header.

Variable resolve : resolver.

Local Abbreviation include := (include_file resolve BridgingHeader_h).

Lemma include_guarded s : is_defined guard s = true -> include s = Ok s.
Proof. intros Hg. by rewrite include_BridgingHeader_h_eq, Hg. Qed.

Lemma include_output s s' :
  include s = Ok s' ->
  exists items,
    output s' = output s ++ items /\
    Forall (provided resolve ffmpeg_headers) items.
Proof.
  rewrite include_BridgingHeader_h_eq. destruct (is_defined guard s).
  - intros [= <-]. exists []. by rewrite app_nil_r.
  - intros H. apply import_all_output in H. exact H.
Qed.

Lemma include_err s e :
  include s = Err e ->
  exists h ms im,
    (h ∈ ffmpeg_headers) /\ e = MissingHeader h /\ resolve Angle h ms im = None.
Proof.
  rewrite include_BridgingHeader_h_eq. destruct (is_defined guard s); [discriminate|].
  apply import_all_err.
Qed.

Lemma include_macro_frame m s s' :
  m <> guard ->
  (forall h ms im r, h ∈ ffmpeg_headers -> resolve Angle h ms im = Some r ->
                     macros_after r !! m = ms !! m) ->
  include s = Ok s' ->
  macros s' !! m = macros s !! m.
Proof.
  intros Hm Hfr. rewrite include_BridgingHeader_h_eq. destruct (is_defined guard s).
  - by intros [= <-].
  - intros H. rewrite (import_all_macro_frame resolve m _ _ _ Hfr H). cbn.
    by rewrite lookup_insert_ne.
Qed.

(** Against an installation that has the six headers, inclusion succeeds. *)
Lemma include_total s :
  (forall h ms im, h ∈ ffmpeg_headers -> is_Some (resolve Angle h ms im)) ->
  exists s', include s = Ok s'.
Proof.
  intros Hinst. destruct (include s) as [s'|e] eqn:Hinc; [by exists s'|].
  apply include_err in Hinc as (h & ms & im & Hh & _ & Hnone).
  destruct (Hinst h ms im Hh) as [r Hr]. congruence.
Qed.

Lemma include_settles s s' : include s = Ok s' -> settled s'.
Proof.
  rewrite include_BridgingHeader_h_eq. destruct (is_defined guard s) eqn:Hg.
  - intros [= <-]. by left.
  - intros H. right. by apply import_all_imported in H as [_ Hall].
Qed.

Lemma include_settled s :
  settled s -> exists s', include s = Ok s' /\ output s' = output s /\ settled s'.
Proof.
  intros Hs. rewrite include_BridgingHeader_h_eq.
  destruct (is_defined guard s) eqn:Hg.
  - exists s. auto.
  - destruct Hs as [Hs|Hs]; [congruence|].
    exists (set_macros (insert guard "") s). split; [|split].
    + by apply import_all_skip.
    + reflexivity.
    + by right.
Qed.

Lemma include_times_settled n s :
  settled s ->
  exists s', include_times resolve n BridgingHeader_h s = Ok s'
             /\ output s' = output s.
Proof.
  revert s. induction n as [|n IH]; intros s Hs; cbn [include_times].
  - by exists s.
  - destruct (include_settled s Hs) as (s1 & -> & Hout & Hs1). cbn [bind].
    destruct (IH s1 Hs1) as (s' & -> & Hout'). exists s'. split; congruence.
Qed.

(** Once the body of the header has been processed, a later inclusion in
    the same translation unit adds no declaration, whatever lines were
    processed in between (they may even undefine the guard: the import
    marks remain). *)
Lemma reinclude_after_other_lines s s1 ls stk s2 :
  is_defined guard s = false ->
  include s = Ok s1 ->
  pp_run resolve ls ([], s1) = Ok (stk, s2) ->
  exists s3, include s2 = Ok s3 /\ output s3 = output s2.
Proof.
  intros Hg Hinc Hrun.
  rewrite include_BridgingHeader_h_eq, Hg in Hinc.
  apply import_all_imported in Hinc as [_ Hmarks].
  apply pp_run_imported in Hrun.
  destruct (include_settled s2) as (s3 & H3 & Hout & _); [|by exists s3].
  right. intros h Hh. apply Hrun. by apply Hmarks.
Qed.

End Header.

(** ** Results *)

Lemma toy_include_ok :
  include_file Toy.installed BridgingHeader_h initial = Ok toy_final.
Proof. vm_compute. reflexivity. Qed.

Lemma hollow_include_ok :
  include_file Toy.hollow BridgingHeader_h initial =
  Ok {| macros := {[ guard := "" ]};
        imported := list_to_set ffmpeg_headers;
        output := [] |}.
Proof. vm_compute. reflexivity. Qed.

(** C1.  The header names brought in by the file, by [#import] or by
    [#include], are exactly the six FFmpeg headers avcodec, avformat,
    avutil, imgutils, swscale and swresample, each in angle-bracket form,
    in that order, and nothing else. *)
Theorem imports_exactly_six_in_order :
  header_imports BridgingHeader_h =
  [ (Angle, "libavcodec/avcodec.h")
  ; (Angle, "libavformat/avformat.h")
  ; (Angle, "libavutil/avutil.h")
  ; (Angle, "libavutil/imgutils.h")
  ; (Angle, "libswscale/swscale.h")
  ; (Angle, "libswresample/swresample.h") ].
Proof. vm_compute. reflexivity. Qed.

(** C8.  Including the header any number of times (at least once) in a row
    emits exactly the declarations that including it once emits, and fails
    exactly when including it once fails, from every preprocessor state and
    against every installation. *)
Theorem include_idempotent (resolve : resolver) (n : nat) (s : pp_state) :
  rmap output (include_times resolve (S n) BridgingHeader_h s) =
  rmap output (include_file resolve BridgingHeader_h s).
Proof.
  cbn [include_times].
  destruct (include_file resolve BridgingHeader_h s) as [s1|e] eqn:Hinc;
    cbn [bind rmap]; [|reflexivity].
  apply include_settles in Hinc.
  destruct (include_times_settled resolve n s1 Hinc) as (s' & -> & Hout).
  cbn [bind rmap]. by rewrite Hout.
Qed.

(** C2.  The file has no text of its own besides comments and directives,
    its directives are the guard test, the guard definition, the six
    imports and the closing [#endif], and whatever an inclusion adds to the
    translation unit is a declaration that one of the six FFmpeg headers
    provides. *)
Theorem no_original_logic :
  own_code BridgingHeader_h = [] /\
  directives BridgingHeader_h =
    [DIfndef guard; DDefine guard ""]
      ++ map (DImport Angle) ffmpeg_headers ++ [DEndif] /\
  forall (resolve : resolver) (s s' : pp_state),
    include_file resolve BridgingHeader_h s = Ok s' ->
    exists items,
      output s' = output s ++ items /\
      Forall (provided resolve ffmpeg_headers) items.
Proof.
  split; [|split].
  - vm_compute. reflexivity.
  - vm_compute. reflexivity.
  - intros resolve s s'. apply include_output.
Qed.

Lemma no_original_logic_witness :
  exists items,
    output toy_final = output initial ++ items /\
    Forall (provided Toy.installed ffmpeg_headers) items.
Proof.
  apply (proj2 (proj2 no_original_logic) Toy.installed initial toy_final).
  vm_compute. reflexivity.
Defined.

(** C4.  The file holds no definition of its own; after an inclusion every
    item of the translation unit was there before or is a declaration
    provided by one of the six FFmpeg headers, and against an installation
    whose headers declare nothing the inclusion adds nothing at all. *)
Theorem no_data_entities :
  own_code BridgingHeader_h = [] /\
  forall (resolve : resolver) (s s' : pp_state),
    include_file resolve BridgingHeader_h s = Ok s' ->
    (forall i, i ∈ output s' ->
               (i ∈ output s) \/ provided resolve ffmpeg_headers i) /\
    ((forall h ms im r, h ∈ ffmpeg_headers ->
                        resolve Angle h ms im = Some r -> decls r = []) ->
     output s' = output s).
Proof.
  split; [vm_compute; reflexivity|].
  intros resolve s s' (items & Hout & Hall)%include_output. split.
  - intros i. rewrite Hout. intros [Hi|Hi]%elem_of_app; [by left|right].
    revert i Hi. by apply Forall_forall.
  - intros Hhollow. destruct items as [|i items].
    + by rewrite Hout, app_nil_r.
    + apply Forall_cons in Hall as [(h & d & ms & im & r & Hh & _ & Hr & Hd) _].
      rewrite (Hhollow h ms im r Hh Hr) in Hd. by apply elem_of_nil in Hd.
Qed.

Lemma hollow_declares_nothing h ms im r :
  h ∈ ffmpeg_headers -> Toy.hollow Angle h ms im = Some r -> decls r = [].
Proof.
  intros _. unfold Toy.hollow. case_bool_decide; [|discriminate].
  by intros [= <-].
Defined.

Lemma no_data_entities_witness :
  output {| macros := {[ guard := "" ]};
            imported := list_to_set ffmpeg_headers;
            output := [] |} = output initial.
Proof.
  apply (proj2 (proj2 no_data_entities Toy.hollow initial _ hollow_include_ok)).
  exact hollow_declares_nothing.
Defined.

(** C7.  No line of the file is code, and an inclusion leaves the items
    that translation units contribute themselves exactly as they were: the
    file declares and creates nothing, so no thread, lock, queue or shared
    variable either. *)
Theorem declares_nothing_of_its_own :
  (forall t, LCode t ∉ BridgingHeader_h) /\
  forall (resolve : resolver) (s s' : pp_state),
    include_file resolve BridgingHeader_h s = Ok s' ->
    own_items (output s') = own_items (output s).
Proof.
  split.
  - intros t Hin. rewrite BridgingHeader_h_parsed in Hin.
    repeat (apply elem_of_cons in Hin as [Hin|Hin]; [discriminate|]).
    by apply elem_of_nil in Hin.
  - intros resolve s s' (items & -> & Hall)%include_output.
    rewrite own_items_app, (provided_not_own resolve _ _ Hall).
    by rewrite app_nil_r.
Qed.

Lemma declares_nothing_of_its_own_witness :
  own_items (output toy_final) = own_items (output initial).
Proof.
  apply (proj2 declares_nothing_of_its_own Toy.installed initial toy_final).
  vm_compute. reflexivity.
Defined.

(** C5.  The file provides nothing of its own, and what it requires is the
    six imports: two installations that resolve those six headers alike
    give the same inclusion, whatever else they hold. *)
Theorem interface_is_six_imports :
  own_code BridgingHeader_h = [] /\
  header_imports BridgingHeader_h = map (pair Angle) ffmpeg_headers /\
  forall (r1 r2 : resolver) (s : pp_state),
    (forall h ms im, h ∈ ffmpeg_headers -> r1 Angle h ms im = r2 Angle h ms im) ->
    include_file r1 BridgingHeader_h s = include_file r2 BridgingHeader_h s.
Proof.
  split; [|split].
  - vm_compute. reflexivity.
  - vm_compute. reflexivity.
  - intros r1 r2 s Hagree. rewrite !include_BridgingHeader_h_eq.
    destruct (is_defined guard s); [done|]. by apply import_all_ext.
Qed.

Lemma interface_is_six_imports_witness :
  include_file Toy.installed BridgingHeader_h initial =
  include_file Toy.with_extra BridgingHeader_h initial.
Proof.
  apply (proj2 (proj2 interface_is_six_imports)).
  intros h ms im Hh. unfold Toy.with_extra.
  case_bool_decide as Heq; [|reflexivity]. subst h.
  repeat (apply elem_of_cons in Hh as [Hh|Hh]; [discriminate|]).
  by apply elem_of_nil in Hh.
Defined.

(** C6.  The file has no [#error] line and no code, defines no macro but
    its guard and undefines none; the only way an inclusion fails is that
    the installation does not resolve one of the six FFmpeg headers. *)
Theorem error_semantics_unmodified :
  (forall msg, DError msg ∉ directives BridgingHeader_h) /\
  own_code BridgingHeader_h = [] /\
  defined_macros BridgingHeader_h = [guard] /\
  undefined_macros BridgingHeader_h = [] /\
  forall (resolve : resolver) (s : pp_state) (e : pp_error),
    include_file resolve BridgingHeader_h s = Err e ->
    exists h ms im,
      (h ∈ ffmpeg_headers) /\ e = MissingHeader h /\
      resolve Angle h ms im = None.
Proof.
  split; [|split; [|split; [|split]]].
  - intros msg Hin. rewrite directives_parsed in Hin.
    repeat (apply elem_of_cons in Hin as [Hin|Hin]; [discriminate|]).
    by apply elem_of_nil in Hin.
  - vm_compute. reflexivity.
  - vm_compute. reflexivity.
  - vm_compute. reflexivity.
  - intros resolve s e. apply include_err.
Qed.

Lemma error_semantics_unmodified_witness :
  exists h ms im,
    (h ∈ ffmpeg_headers) /\
    MissingHeader "libswscale/swscale.h" = MissingHeader h /\
    Toy.no_swscale Angle h ms im = None.
Proof.
  apply (proj2 (proj2 (proj2 (proj2 error_semantics_unmodified)))
           Toy.no_swscale initial).
  vm_compute. reflexivity.
Defined.

(** C9.  The file defines its guard and no other macro, and undefines none.
    An inclusion with the guard defined changes nothing; otherwise the six
    headers are processed from the incoming macro table with the guard
    added, and a macro other than the guard that the headers leave alone
    has the same definition after the inclusion as before. *)
Theorem guard_is_only_macro :
  defined_macros BridgingHeader_h = [guard] /\
  undefined_macros BridgingHeader_h = [] /\
  forall (resolve : resolver) (s : pp_state),
    include_file resolve BridgingHeader_h s =
      (if is_defined guard s then Ok s
       else import_all resolve ffmpeg_headers
              (set_macros (insert guard "") s)) /\
    forall (m : string) (s' : pp_state),
      m <> guard ->
      (forall h ms im r, h ∈ ffmpeg_headers ->
                         resolve Angle h ms im = Some r ->
                         macros_after r !! m = ms !! m) ->
      include_file resolve BridgingHeader_h s = Ok s' ->
      macros s' !! m = macros s !! m.
Proof.
  split; [|split].
  - vm_compute. reflexivity.
  - vm_compute. reflexivity.
  - intros resolve s. split.
    + apply include_BridgingHeader_h_eq.
    + intros m s'. apply include_macro_frame.
Qed.

Lemma guard_is_only_macro_witness :
  macros (toy_after with_averror_eof) !! "AVERROR_EOF" =
  macros with_averror_eof !! "AVERROR_EOF".
Proof.
  apply (proj2 (proj2 (proj2 guard_is_only_macro) Toy.installed with_averror_eof)).
  - discriminate.
  - intros h ms im r _. unfold Toy.installed.
    case_bool_decide; [|discriminate]. intros [= <-]. cbn.
    by rewrite lookup_insert_ne.
  - vm_compute. reflexivity.
Defined.

Example toy_keeps_averror_eof :
  macros (toy_after with_averror_eof) !! "AVERROR_EOF" = Some "(-541478725)".
Proof. vm_compute. reflexivity. Qed.

(** ** Further properties of the inclusion *)

Lemma import_all_blocks (resolve : resolver) hs s s' :
  import_all resolve hs s = Ok s' ->
  exists dss : list (list string),
    length dss = length hs /\
    output s' = output s ++ concat (zip_with (fun h ds => map (From h) ds) hs dss).
Proof.
  revert s. induction hs as [|h hs IH]; intros s; cbn [import_all].
  - intros [= <-]. exists []. by rewrite app_nil_r.
  - intros (s1 & H1 & H2)%bind_ok.
    apply IH in H2 as (dss & Hlen & Hout). clear IH.
    apply do_import_cases in H1 as [[_ ->]|(_ & r & _ & ->)].
    + exists ([] :: dss). cbn. by rewrite Hlen.
    + exists (decls r :: dss). cbn in *. by rewrite Hlen, Hout, app_assoc.
Qed.

Lemma import_all_fresh (resolve : resolver) hs s s' :
  import_all resolve hs s = Ok s' ->
  exists items,
    output s' = output s ++ items /\
    Forall (fun i => exists h d, i = From h d /\ (h ∈ hs) /\ (h ∉ imported s))
           items.
Proof.
  revert s. induction hs as [|h hs IH]; intros s; cbn [import_all].
  - intros [= <-]. exists []. by rewrite app_nil_r.
  - intros (s1 & H1 & H2)%bind_ok.
    apply IH in H2 as (items2 & Hout2 & Hall2). clear IH.
    pose proof (do_include_imported resolve _ _ _ _ _ H1) as Hsub.
    assert (Forall (fun i => exists h' d, i = From h' d /\ (h' ∈ h :: hs)
                                          /\ (h' ∉ imported s)) items2) as Hall2'.
    { eapply Forall_impl; [exact Hall2|].
      intros i (h' & d & -> & Hin & Hfresh). exists h', d.
      repeat split; [by right|set_solver]. }
    apply do_import_cases in H1 as [[_ ->]|(Hn & r & _ & ->)].
    + by exists items2.
    + exists (map (From h) (decls r) ++ items2). cbn in *. split.
      * by rewrite Hout2, app_assoc.
      * apply Forall_app. split; [|done].
        apply Forall_forall. intros i (d & -> & _)%list_elem_of_fmap.
        exists h, d. repeat split; [by left|done].
Qed.

(** X1.  Against an installation in which each of the six FFmpeg headers
    resolves, whatever the macro table and import marks it is entered with,
    including the header succeeds from every preprocessor state. *)
Theorem include_succeeds_when_installed (resolve : resolver) (s : pp_state) :
  (forall h ms im, h ∈ ffmpeg_headers -> is_Some (resolve Angle h ms im)) ->
  exists s', include_file resolve BridgingHeader_h s = Ok s'.
Proof.
  intros Hinst.
  destruct (include_file resolve BridgingHeader_h s) as [s'|e] eqn:Hinc;
    [by exists s'|].
  apply include_err in Hinc as (h & ms & im & Hh & _ & Hnone).
  destruct (Hinst h ms im Hh) as [r Hr]. congruence.
Qed.

Lemma include_succeeds_when_installed_witness :
  exists s', include_file Toy.installed BridgingHeader_h initial = Ok s'.
Proof.
  apply (include_succeeds_when_installed Toy.installed initial).
  intros h ms im Hh. unfold Toy.installed.
  rewrite bool_decide_eq_true_2 by exact Hh. eauto.
Defined.

(** X2.  With the guard macro already defined the header is skipped whole:
    the inclusion succeeds and returns the state it was given, without
    asking the installation for any header, so it succeeds even when no
    FFmpeg header is installed. *)
Theorem include_skipped_when_guard_defined (resolve : resolver) (s : pp_state) :
  is_defined guard s = true ->
  include_file resolve BridgingHeader_h s = Ok s.
Proof. intros Hg. by rewrite include_BridgingHeader_h_eq, Hg. Qed.

Lemma include_skipped_when_guard_defined_witness :
  include_file nothing_installed BridgingHeader_h guard_predefined =
  Ok guard_predefined.
Proof.
  apply (include_skipped_when_guard_defined nothing_installed guard_predefined).
  vm_compute. reflexivity.
Defined.

(** X3.  A successful inclusion entered with the guard undefined leaves
    every import mark that was set in place and sets the mark of each of the
    six FFmpeg headers. *)
Theorem include_marks_headers (resolve : resolver) (s s' : pp_state) :
  is_defined guard s = false ->
  include_file resolve BridgingHeader_h s = Ok s' ->
  list_to_set ffmpeg_headers ∪ imported s ⊆ imported s'.
Proof.
  intros Hg. rewrite include_BridgingHeader_h_eq, Hg.
  intros [Hsub Hall]%import_all_imported.
  intros x [Hx%elem_of_list_to_set|Hx]%elem_of_union.
  - by apply Hall.
  - by apply Hsub.
Qed.

Lemma include_marks_headers_witness :
  list_to_set ffmpeg_headers ∪ imported avutil_first
    ⊆ imported (toy_after avutil_first).
Proof.
  apply (include_marks_headers Toy.installed avutil_first).
  - vm_compute. reflexivity.
  - vm_compute. reflexivity.
Defined.



(** X5.  What an inclusion adds comes only from those of the six headers
    that did not carry an import mark when the inclusion began: a header the
    translation unit had already imported is not emitted a second time. *)
Theorem include_emits_only_unmarked (resolve : resolver) (s s' : pp_state) :
  include_file resolve BridgingHeader_h s = Ok s' ->
  exists items,
    output s' = output s ++ items /\
    Forall (fun i => exists h d,
                i = From h d /\ (h ∈ ffmpeg_headers) /\ (h ∉ imported s))
           items.
Proof.
  rewrite include_BridgingHeader_h_eq. destruct (is_defined guard s).
  - intros [= <-]. exists []. by rewrite app_nil_r.
  - intros H. apply import_all_fresh in H. exact H.
Qed.

Lemma include_emits_only_unmarked_witness :
  exists items,
    output (toy_after avutil_first) = output avutil_first ++ items /\
    Forall (fun i => exists h d,
                i = From h d /\ (h ∈ ffmpeg_headers)
                /\ (h ∉ imported avutil_first))
           items.
Proof.
  apply (include_emits_only_unmarked Toy.installed avutil_first).
  vm_compute. reflexivity.
Defined.

Example avutil_not_repeated :
  output (toy_after avutil_first) =
  [ From "libavcodec/avcodec.h" "decl of libavcodec/avcodec.h"
  ; From "libavformat/avformat.h" "decl of libavformat/avformat.h"
  ; From "libavutil/imgutils.h" "decl of libavutil/imgutils.h"
  ; From "libswscale/swscale.h" "decl of libswscale/swscale.h"
  ; From "libswresample/swresample.h" "decl of libswresample/swresample.h" ].
Proof. vm_compute. reflexivity. Qed.

(** X6.  What an inclusion adds is six consecutive blocks of declarations,
    one per header (possibly empty), in the order the file lists the
    headers: avcodec, avformat, avutil, imgutils, swscale, swresample. *)
Theorem include_output_in_header_order (resolve : resolver) (s s' : pp_state) :
  include_file resolve BridgingHeader_h s = Ok s' ->
  exists dss : list (list string),
    length dss = length ffmpeg_headers /\
    output s' =
      output s
        ++ concat (zip_with (fun h ds => map (From h) ds) ffmpeg_headers dss).
Proof.
  rewrite include_BridgingHeader_h_eq. destruct (is_defined guard s).
  - intros [= <-]. exists (replicate (length ffmpeg_headers) []).
    split; [reflexivity|]. by rewrite app_nil_r.
  - intros H. apply import_all_blocks in H. exact H.
Qed.

Lemma include_output_in_header_order_witness :
  exists dss : list (list string),
    length dss = length ffmpeg_headers /\
    output toy_final =
      output initial
        ++ concat (zip_with (fun h ds => map (From h) ds) ffmpeg_headers dss).
Proof.
  apply (include_output_in_header_order Toy.installed initial toy_final).
  vm_compute. reflexivity.
Defined.

(** X7.  After a successful inclusion entered with the guard undefined, the
    guard is defined with an empty replacement text, provided the six
    headers leave the guard macro alone. *)
Theorem include_defines_guard_empty (resolve : resolver) (s s' : pp_state) :
  is_defined guard s = false ->
  (forall h ms im r, h ∈ ffmpeg_headers ->
                     resolve Angle h ms im = Some r ->
                     macros_after r !! guard = ms !! guard) ->
  include_file resolve BridgingHeader_h s = Ok s' ->
  macros s' !! guard = Some "".
Proof.
  intros Hg Hfr. rewrite include_BridgingHeader_h_eq, Hg. intros H.
  rewrite (import_all_macro_frame resolve guard _ _ _ Hfr H). cbn.
  by rewrite lookup_insert_eq.
Qed.

Lemma include_defines_guard_empty_witness :
  macros toy_final !! guard = Some "".
Proof.
  apply (include_defines_guard_empty Toy.installed initial toy_final).
  - vm_compute. reflexivity.
  - intros h ms im r _. unfold Toy.installed.
    case_bool_decide; [|discriminate]. intros [= <-]. cbn.
    by rewrite lookup_insert_ne.
  - vm_compute. reflexivity.
Defined.
